(** * The sun4i A10 audio PLL (PLL2) clock driver

    A shallow embedding of [drivers/clk/sunxi/clk-a10-pll2.c]: the four
    clock views (PLL2x1, PLL2x2, PLL2x4, PLL2x8) that share one 32-bit
    memory-mapped control register, and the properties of their
    [recalc_rate], [round_rate] and [set_rate] callbacks.

    Machine integers are modelled as [Z] with the wrap-around written out;
    the register is a piece of explicit state that also records every
    [readl]/[writel] issued, and a division by zero is a failure of the
    computation. *)

From Stdlib Require Import ZArith List Lia Bool.
Import ListNotations.

Local Open Scope Z_scope.

(** ** Machine integers *)

(** [unsigned long] and [long] are 32 bits wide on the 32-bit ARM targets the
    driver is built for and 64 bits wide on an LP64 kernel. *)
Inductive arch : Type := ILP32 | LP64.

Definition BITS_PER_LONG (a : arch) : Z :=
  match a with
  | ILP32 => 32
  | LP64 => 64
  end.

(** Conversion to [u32]. *)
Definition cast_u32 (x : Z) : Z := x mod 2 ^ 32.

(** Conversion to [unsigned long]. *)
Definition cast_ulong (a : arch) (x : Z) : Z := x mod 2 ^ BITS_PER_LONG a.

(** Conversion to [long] (two's complement, as the kernel's compilers do). *)
Definition cast_long (a : arch) (x : Z) : Z :=
  let r := x mod 2 ^ BITS_PER_LONG a in
  if r <? 2 ^ (BITS_PER_LONG a - 1) then r else r - 2 ^ BITS_PER_LONG a.

(** Multiplication of two [unsigned long] values. *)
Definition mul_ulong (a : arch) (x y : Z) : Z := cast_ulong a (x * y).

Definition is_u32 (x : Z) : Prop := 0 <= x < 2 ^ 32.
Definition is_ulong (a : arch) (x : Z) : Prop := 0 <= x < 2 ^ BITS_PER_LONG a.

(** Modelled from the spec: the errno constant [EINVAL] comes from the
    kernel's errno header, which is not part of the driver file; the spec
    calls a return of [-EINVAL] an [UnsupportedRateError].  Its Linux value
    is 22. *)
Definition EINVAL : Z := 22.

(** ** The register file and the computation monad *)

Inductive access : Type :=
| Readl (v : Z)
| Writel (v : Z).

(** The device: the current contents of the PLL2 control register and the
    accesses made to it so far, oldest first. *)
Record iomem : Type := mk_iomem {
  reg : Z;
  trace : list access
}.

(** A driver computation threads the device state and fails ([None]) where
    the C program would divide by zero. *)
Definition M (A : Type) : Type := iomem -> option (A * iomem).

Definition ret {A : Type} (x : A) : M A := fun s => Some (x, s).

Definition bind {A B : Type} (m : M A) (k : A -> M B) : M B :=
  fun s =>
    match m s with
    | Some (x, s') => k x s'
    | None => None
    end.

Notation "x <- m ;; k" := (bind m (fun x => k))
  (at level 61, m at next level, right associativity).
Notation "m ;;; k" := (bind m (fun _ => k))
  (at level 61, right associativity).

Definition readl : M Z :=
  fun s => Some (reg s, mk_iomem (reg s) (trace s ++ [Readl (reg s)])).

Definition writel (v : Z) : M unit :=
  fun s => Some (tt, mk_iomem v (trace s ++ [Writel v])).

(** Unsigned division, truncating; undefined for a zero divisor. *)
Definition udiv (x y : Z) : M Z :=
  fun s => if y =? 0 then None else Some (Z.quot x y, s).

Definition is_write (e : access) : bool :=
  match e with
  | Writel _ => true
  | Readl _ => false
  end.

(** The writes among the accesses of a trace. *)
Definition writes (t : list access) : list access := filter is_write t.

(** ** Register layout *)

Definition SUN4I_PLL2_ENABLE : Z := 31.
Definition SUN4I_PLL2_POST_DIV : Z := 26.
Definition SUN4I_PLL2_POST_DIV_MASK : Z := 0xF.
Definition SUN4I_PLL2_N : Z := 8.
Definition SUN4I_PLL2_N_MASK : Z := 0x7F.
Definition SUN4I_PLL2_PRE_DIV : Z := 0.
Definition SUN4I_PLL2_PRE_DIV_MASK : Z := 0x1F.

Definition SUN4I_PLL2_OUTPUTS : Z := 4.

(** ** The callbacks *)

Section Callbacks.

Variable a : arch.

Definition sun4i_pll2_1x_recalc_rate (parent_rate : Z) : M Z :=
  val <- readl ;;
  let n := Z.land (Z.shiftr val SUN4I_PLL2_N) SUN4I_PLL2_N_MASK in
  let prediv := Z.land (Z.shiftr val SUN4I_PLL2_PRE_DIV) SUN4I_PLL2_PRE_DIV_MASK in
  let postdiv := Z.land (Z.shiftr val SUN4I_PLL2_POST_DIV) SUN4I_PLL2_POST_DIV_MASK in
  (* 0 is a special case and means 1 *)
  let n := if n =? 0 then 1 else n in
  let prediv := if prediv =? 0 then 1 else prediv in
  let postdiv := if postdiv =? 0 then 1 else postdiv in
  q <- udiv (mul_ulong a parent_rate n) prediv ;;
  udiv q postdiv.

Definition sun4i_pll2_8x_recalc_rate (parent_rate : Z) : M Z :=
  val <- readl ;;
  let n := Z.land (Z.shiftr val SUN4I_PLL2_N) SUN4I_PLL2_N_MASK in
  let prediv := Z.land (Z.shiftr val SUN4I_PLL2_PRE_DIV) SUN4I_PLL2_PRE_DIV_MASK in
  (* 0 is a special case and means 1 *)
  let n := if n =? 0 then 1 else n in
  let prediv := if prediv =? 0 then 1 else prediv in
  udiv (mul_ulong a (mul_ulong a parent_rate 2) n) prediv.

Definition sun4i_pll2_4x_recalc_rate (parent_rate : Z) : M Z :=
  p <- udiv parent_rate 2 ;;
  sun4i_pll2_8x_recalc_rate p.

Definition sun4i_pll2_2x_recalc_rate (parent_rate : Z) : M Z :=
  p <- udiv parent_rate 4 ;;
  sun4i_pll2_8x_recalc_rate p.

(** A [round_rate] callback receives the requested rate and a pointer to the
    parent rate; it yields its [long] return value together with the
    contents of [*parent_rate] when it returns. *)
Definition sun4i_pll2_1x_round_rate (rate parent_rate : Z) : M (Z * Z) :=
  if rate <? 22579200 then ret (- EINVAL, parent_rate)
  else if (rate >=? 22579200) && (rate <? 24576000) then ret (22579200, parent_rate)
  else ret (24576000, parent_rate).

Definition sun4i_pll2_8x_round_rate (rate parent_rate : Z) : M (Z * Z) :=
  p <- udiv (mul_ulong a rate 4) 2 ;;
  ret (cast_long a rate, p).

Definition sun4i_pll2_4x_round_rate (rate parent_rate : Z) : M (Z * Z) :=
  (* PLL2x4 * 2 = PLL2x8 *)
  sun4i_pll2_8x_round_rate (mul_ulong a rate 2) parent_rate.

Definition sun4i_pll2_2x_round_rate (rate parent_rate : Z) : M (Z * Z) :=
  (* PLL2x2 * 4 = PLL2x8 *)
  sun4i_pll2_8x_round_rate (mul_ulong a rate 4) parent_rate.

Definition sun4i_pll2_set_rate (rate parent_rate : Z) : M Z :=
  val <- readl ;;
  let val := Z.land val (cast_u32 (Z.lnot (Z.shiftl SUN4I_PLL2_N_MASK SUN4I_PLL2_N))) in
  let val := Z.land val (cast_u32 (Z.lnot (Z.shiftl SUN4I_PLL2_PRE_DIV_MASK SUN4I_PLL2_PRE_DIV))) in
  let val := Z.land val (cast_u32 (Z.lnot (Z.shiftl SUN4I_PLL2_POST_DIV_MASK SUN4I_PLL2_POST_DIV))) in
  let val := Z.lor val (Z.lor (Z.shiftl 21 SUN4I_PLL2_PRE_DIV) (Z.shiftl 4 SUN4I_PLL2_POST_DIV)) in
  if rate =? 22579200 then
    writel (Z.lor val (Z.shiftl 79 SUN4I_PLL2_N)) ;;; ret 0
  else if rate =? 24576000 then
    writel (Z.lor val (Z.shiftl 86 SUN4I_PLL2_N)) ;;; ret 0
  else
    ret (- EINVAL).

(** The operation tables registered for the four outputs. *)
Record clk_ops : Type := mk_clk_ops {
  recalc_rate : Z -> M Z;
  round_rate : Z -> Z -> M (Z * Z);
  set_rate : option (Z -> Z -> M Z)
}.

Definition sun4i_pll2_ops_1x : clk_ops :=
  mk_clk_ops sun4i_pll2_1x_recalc_rate sun4i_pll2_1x_round_rate
             (Some sun4i_pll2_set_rate).

Definition sun4i_pll2_ops_2x : clk_ops :=
  mk_clk_ops sun4i_pll2_2x_recalc_rate sun4i_pll2_2x_round_rate None.

Definition sun4i_pll2_ops_4x : clk_ops :=
  mk_clk_ops sun4i_pll2_4x_recalc_rate sun4i_pll2_4x_round_rate None.

Definition sun4i_pll2_ops_8x : clk_ops :=
  mk_clk_ops sun4i_pll2_8x_recalc_rate sun4i_pll2_8x_round_rate None.

(** The outputs in the order [sun4i_pll2_setup] registers them. *)
Inductive view : Type := View1x | View2x | View4x | View8x.

Definition ops_of (v : view) : clk_ops :=
  match v with
  | View1x => sun4i_pll2_ops_1x
  | View2x => sun4i_pll2_ops_2x
  | View4x => sun4i_pll2_ops_4x
  | View8x => sun4i_pll2_ops_8x
  end.

End Callbacks.

(** ** The register layout as the specification tabulates it *)

Module Spec.

(** A bitfield by bit offset and width. *)
Definition field (raw offset width : Z) : Z := (raw / 2 ^ offset) mod 2 ^ width.

(** A stored 0 denotes the effective value 1. *)
Definition zero_means_one (x : Z) : Z := if x =? 0 then 1 else x.

Definition N (raw : Z) : Z := zero_means_one (field raw 8 7).
Definition P (raw : Z) : Z := zero_means_one (field raw 0 5).
Definition S (raw : Z) : Z := zero_means_one (field raw 26 4).

(** Bit [i] lies in one of the three rate fields. *)
Definition in_rate_field (i : Z) : bool :=
  ((0 <=? i) && (i <? 5)) || ((8 <=? i) && (i <? 15)) || ((26 <=? i) && (i <? 30)).

End Spec.

(** The state a computation leaves when all it did was read the register
    once. *)
Definition after_read (s : iomem) : iomem :=
  mk_iomem (reg s) (trace s ++ [Readl (reg s)]).

(** The value [sun4i_pll2_set_rate] writes for multiplier [n] over the old
    contents [v]: the old bits outside the rate fields, with P = 21, S = 4
    and N = [n] put in. *)
Definition committed (v n : Z) : Z :=
  Z.lor (Z.land v 0xC3FF80E0) (Z.lor 0x10000015 (Z.shiftl n 8)).

(** The value a computation returns, the final device state dropped. *)
Definition result {A : Type} (o : option (A * iomem)) : option A :=
  option_map fst o.

(** The device at reset, with nothing accessed yet. *)
Definition fresh (v : Z) : iomem := mk_iomem v [].

(** The register contents a computation leaves behind. *)
Definition reg_after {A : Type} (o : option (A * iomem)) : option Z :=
  option_map (fun x => reg (snd x)) o.

(** * Lemmas *)

(** ** Bitfields *)

Lemma field_shift_mask v k w :
  0 <= k -> 0 <= w ->
  Z.land (Z.shiftr v k) (Z.ones w) = Spec.field v k w.
Proof.
  intros Hk Hw. unfold Spec.field.
  now rewrite Z.land_ones, Z.shiftr_div_pow2.
Qed.

Lemma field_N_eq v :
  Z.land (Z.shiftr v SUN4I_PLL2_N) SUN4I_PLL2_N_MASK = Spec.field v 8 7.
Proof. apply (field_shift_mask v 8 7); lia. Qed.

Lemma field_P_eq v :
  Z.land (Z.shiftr v SUN4I_PLL2_PRE_DIV) SUN4I_PLL2_PRE_DIV_MASK = Spec.field v 0 5.
Proof. apply (field_shift_mask v 0 5); lia. Qed.

Lemma field_S_eq v :
  Z.land (Z.shiftr v SUN4I_PLL2_POST_DIV) SUN4I_PLL2_POST_DIV_MASK = Spec.field v 26 4.
Proof. apply (field_shift_mask v 26 4); lia. Qed.

Lemma field_range v k w : 0 <= w -> 0 <= Spec.field v k w < 2 ^ w.
Proof.
  intros Hw. unfold Spec.field. apply Z.mod_pos_bound. now apply Z.pow_pos_nonneg.
Qed.

Lemma zero_means_one_pos x : 0 <= x -> 1 <= Spec.zero_means_one x.
Proof.
  intros Hx. unfold Spec.zero_means_one.
  destruct (Z.eqb_spec x 0); lia.
Qed.

Lemma N_range v : 1 <= Spec.N v <= 127.
Proof.
  unfold Spec.N, Spec.zero_means_one.
  pose proof (field_range v 8 7 ltac:(lia)) as H. change (2 ^ 7) with 128 in H.
  destruct (Z.eqb_spec (Spec.field v 8 7) 0); lia.
Qed.

Lemma P_range v : 1 <= Spec.P v <= 31.
Proof.
  unfold Spec.P, Spec.zero_means_one.
  pose proof (field_range v 0 5 ltac:(lia)) as H. change (2 ^ 5) with 32 in H.
  destruct (Z.eqb_spec (Spec.field v 0 5) 0); lia.
Qed.

Lemma S_range v : 1 <= Spec.S v <= 15.
Proof.
  unfold Spec.S, Spec.zero_means_one.
  pose proof (field_range v 26 4 ltac:(lia)) as H. change (2 ^ 4) with 16 in H.
  destruct (Z.eqb_spec (Spec.field v 26 4) 0); lia.
Qed.

(** ** Machine arithmetic *)

Lemma modulus_pos a : 0 < 2 ^ BITS_PER_LONG a.
Proof. destruct a; reflexivity. Qed.

Lemma cast_ulong_range a x : is_ulong a (cast_ulong a x).
Proof. apply Z.mod_pos_bound, modulus_pos. Qed.

Lemma cast_ulong_small a x : is_ulong a x -> cast_ulong a x = x.
Proof. intros H. now apply Z.mod_small. Qed.

Lemma mul_ulong_range a x y : is_ulong a (mul_ulong a x y).
Proof. apply cast_ulong_range. Qed.

Lemma quot_div_nonneg x y : 0 <= x -> 0 < y -> Z.quot x y = x / y.
Proof. intros Hx Hy. now apply Z.quot_div_nonneg. Qed.

(** ** The value [set_rate] builds *)

Lemma set_rate_val v n :
  Z.lor
    (Z.lor
       (Z.land
          (Z.land
             (Z.land v (cast_u32 (Z.lnot (Z.shiftl SUN4I_PLL2_N_MASK SUN4I_PLL2_N))))
             (cast_u32 (Z.lnot (Z.shiftl SUN4I_PLL2_PRE_DIV_MASK SUN4I_PLL2_PRE_DIV))))
          (cast_u32 (Z.lnot (Z.shiftl SUN4I_PLL2_POST_DIV_MASK SUN4I_PLL2_POST_DIV))))
       (Z.lor (Z.shiftl 21 SUN4I_PLL2_PRE_DIV) (Z.shiftl 4 SUN4I_PLL2_POST_DIV)))
    (Z.shiftl n SUN4I_PLL2_N)
  = committed v n.
Proof.
  unfold committed.
  rewrite <- !Z.land_assoc, <- Z.lor_assoc.
  reflexivity.
Qed.

Lemma set_rate_eq_22579200 parent_rate s :
  sun4i_pll2_set_rate 22579200 parent_rate s =
  Some (0, mk_iomem (committed (reg s) 79)
                    (trace s ++ [Readl (reg s); Writel (committed (reg s) 79)])).
Proof.
  unfold sun4i_pll2_set_rate, bind, readl, writel, ret. cbn [reg trace Z.eqb Pos.eqb].
  rewrite set_rate_val, <- app_assoc. reflexivity.
Qed.

Lemma set_rate_eq_24576000 parent_rate s :
  sun4i_pll2_set_rate 24576000 parent_rate s =
  Some (0, mk_iomem (committed (reg s) 86)
                    (trace s ++ [Readl (reg s); Writel (committed (reg s) 86)])).
Proof.
  unfold sun4i_pll2_set_rate, bind, readl, writel, ret. cbn [reg trace Z.eqb Pos.eqb].
  rewrite set_rate_val, <- app_assoc. reflexivity.
Qed.

Lemma set_rate_eq_other rate parent_rate s :
  rate <> 22579200 -> rate <> 24576000 ->
  sun4i_pll2_set_rate rate parent_rate s = Some (- EINVAL, after_read s).
Proof.
  intros H1 H2. unfold sun4i_pll2_set_rate, bind, readl, ret. cbn [reg trace].
  destruct (Z.eqb_spec rate 22579200); [contradiction|].
  destruct (Z.eqb_spec rate 24576000); [contradiction|].
  reflexivity.
Qed.

Lemma committed_fields v n :
  n = 79 \/ n = 86 ->
  Spec.field (committed v n) 8 7 = n /\
  Spec.field (committed v n) 0 5 = 21 /\
  Spec.field (committed v n) 26 4 = 4.
Proof.
  intros Hn.
  rewrite <- (field_shift_mask _ 8 7), <- (field_shift_mask _ 0 5),
    <- (field_shift_mask _ 26 4) by lia.
  unfold committed.
  rewrite !Z.shiftr_lor, !Z.shiftr_land, !Z.land_lor_distr_l, <- !Z.land_assoc.
  destruct Hn as [-> | ->]; cbn -[Z.land Z.lor Z.shiftr];
    rewrite !Z.land_0_r; repeat split; reflexivity.
Qed.

Lemma small_index_cases i :
  0 <= i < 32 ->
  In i [0; 1; 2; 3; 4; 5; 6; 7; 8; 9; 10; 11; 12; 13; 14; 15; 16; 17; 18; 19;
        20; 21; 22; 23; 24; 25; 26; 27; 28; 29; 30; 31].
Proof. intros H. cbn [In]. lia. Qed.

Lemma committed_frame v n i :
  n = 79 \/ n = 86 ->
  0 <= i < 32 ->
  Spec.in_rate_field i = false ->
  Z.testbit (committed v n) i = Z.testbit v i.
Proof.
  intros Hn Hi Hf. unfold committed.
  rewrite Z.lor_spec, Z.land_spec.
  apply small_index_cases in Hi. cbn [In] in Hi.
  destruct Hn as [-> | ->];
    repeat (destruct Hi as [<- | Hi];
            [first [discriminate Hf
                   | cbn; now rewrite andb_true_r, orb_false_r] |]);
    contradiction.
Qed.

Lemma in_rate_field_masks i :
  0 <= i < 32 ->
  Spec.in_rate_field i =
  Z.testbit (Z.lor (Z.shiftl SUN4I_PLL2_N_MASK SUN4I_PLL2_N)
               (Z.lor (Z.shiftl SUN4I_PLL2_PRE_DIV_MASK SUN4I_PLL2_PRE_DIV)
                      (Z.shiftl SUN4I_PLL2_POST_DIV_MASK SUN4I_PLL2_POST_DIV))) i.
Proof.
  intros Hi. apply small_index_cases in Hi. cbn [In] in Hi.
  repeat (destruct Hi as [<- | Hi]; [reflexivity |]).
  contradiction.
Qed.

Lemma committed_u32 v n : n = 79 \/ n = 86 -> is_u32 (committed v n).
Proof.
  intros Hn.
  assert (E : Z.land (committed v n) (Z.ones 32) = committed v n).
  { unfold committed. rewrite Z.land_lor_distr_l, <- Z.land_assoc.
    destruct Hn as [-> | ->]; reflexivity. }
  rewrite Z.land_ones in E by lia. rewrite <- E.
  apply Z.mod_pos_bound. reflexivity.
Qed.

(** ** Closed forms of the [recalc_rate] callbacks *)

Ltac fold_fields :=
  rewrite ?field_N_eq, ?field_P_eq, ?field_S_eq;
  repeat match goal with
         | |- context [if Spec.field ?v 8 7 =? 0 then 1 else Spec.field ?v 8 7] =>
             change (if Spec.field v 8 7 =? 0 then 1 else Spec.field v 8 7)
               with (Spec.N v)
         | |- context [if Spec.field ?v 0 5 =? 0 then 1 else Spec.field ?v 0 5] =>
             change (if Spec.field v 0 5 =? 0 then 1 else Spec.field v 0 5)
               with (Spec.P v)
         | |- context [if Spec.field ?v 26 4 =? 0 then 1 else Spec.field ?v 26 4] =>
             change (if Spec.field v 26 4 =? 0 then 1 else Spec.field v 26 4)
               with (Spec.S v)
         end.

Lemma udiv_nonzero x y s : y <> 0 -> udiv x y s = Some (Z.quot x y, s).
Proof.
  intros Hy. unfold udiv. destruct (Z.eqb_spec y 0); [contradiction | reflexivity].
Qed.

Lemma recalc_1x_eq a parent_rate s :
  sun4i_pll2_1x_recalc_rate a parent_rate s =
  Some (Z.quot (Z.quot (mul_ulong a parent_rate (Spec.N (reg s))) (Spec.P (reg s)))
               (Spec.S (reg s)),
        after_read s).
Proof.
  unfold sun4i_pll2_1x_recalc_rate, bind, readl. cbv beta iota zeta.
  fold_fields.
  pose proof (P_range (reg s)). pose proof (S_range (reg s)).
  rewrite udiv_nonzero by lia. rewrite udiv_nonzero by lia.
  reflexivity.
Qed.

Lemma recalc_8x_eq a parent_rate s :
  sun4i_pll2_8x_recalc_rate a parent_rate s =
  Some (Z.quot (mul_ulong a (mul_ulong a parent_rate 2) (Spec.N (reg s)))
               (Spec.P (reg s)),
        after_read s).
Proof.
  unfold sun4i_pll2_8x_recalc_rate, bind, readl. cbv beta iota zeta.
  fold_fields.
  pose proof (P_range (reg s)).
  rewrite udiv_nonzero by lia.
  reflexivity.
Qed.

Lemma recalc_4x_eq a parent_rate s :
  sun4i_pll2_4x_recalc_rate a parent_rate s =
  sun4i_pll2_8x_recalc_rate a (Z.quot parent_rate 2) s.
Proof.
  unfold sun4i_pll2_4x_recalc_rate, bind. now rewrite udiv_nonzero by lia.
Qed.

Lemma recalc_2x_eq a parent_rate s :
  sun4i_pll2_2x_recalc_rate a parent_rate s =
  sun4i_pll2_8x_recalc_rate a (Z.quot parent_rate 4) s.
Proof.
  unfold sun4i_pll2_2x_recalc_rate, bind. now rewrite udiv_nonzero by lia.
Qed.

Lemma round_8x_eq a rate parent_rate s :
  sun4i_pll2_8x_round_rate a rate parent_rate s =
  Some (cast_long a rate, Z.quot (mul_ulong a rate 4) 2, s).
Proof.
  unfold sun4i_pll2_8x_round_rate, bind. now rewrite udiv_nonzero by lia.
Qed.

Lemma writes_app t u : writes (t ++ u) = writes t ++ writes u.
Proof. apply filter_app. Qed.

Lemma writes_after_read s : writes (trace (after_read s)) = writes (trace s).
Proof. cbn [after_read trace]. rewrite writes_app. cbn. apply app_nil_r. Qed.

(** * View 1x: [set_rate] *)

(** C1: for every requested rate and every prior register value,
    [sun4i_pll2_set_rate] returns; a request of exactly 22,579,200 succeeds
    and commits N = 79 with P = 21 and S = 4 in a single write, a request of
    exactly 24,576,000 succeeds and commits N = 86 with the same P and S, and
    any other request returns [-EINVAL] with the register as it was and no
    write issued. *)
Theorem set_rate_commits_by_exact_match (rate parent_rate : Z) (s : iomem) :
  exists r s',
    sun4i_pll2_set_rate rate parent_rate s = Some (r, s') /\
    (rate = 22579200 ->
     r = 0 /\
     trace s' = trace s ++ [Readl (reg s); Writel (reg s')] /\
     Spec.field (reg s') 8 7 = 79 /\
     Spec.field (reg s') 0 5 = 21 /\
     Spec.field (reg s') 26 4 = 4) /\
    (rate = 24576000 ->
     r = 0 /\
     trace s' = trace s ++ [Readl (reg s); Writel (reg s')] /\
     Spec.field (reg s') 8 7 = 86 /\
     Spec.field (reg s') 0 5 = 21 /\
     Spec.field (reg s') 26 4 = 4) /\
    (rate <> 22579200 -> rate <> 24576000 ->
     r = - EINVAL /\
     reg s' = reg s /\
     writes (trace s') = writes (trace s)).
Proof.
  destruct (Z.eq_dec rate 22579200) as [-> | H1];
    [| destruct (Z.eq_dec rate 24576000) as [-> | H2]].
  - eexists _, _. split; [apply set_rate_eq_22579200|].
    cbn [reg trace].
    destruct (committed_fields (reg s) 79) as (HN & HP & HS); [now left|].
    repeat split; try assumption; try discriminate; intros; contradiction.
  - eexists _, _. split; [apply set_rate_eq_24576000|].
    cbn [reg trace].
    destruct (committed_fields (reg s) 86) as (HN & HP & HS); [now right|].
    repeat split; try assumption; try discriminate; intros; contradiction.
  - eexists _, _. split; [now apply set_rate_eq_other|].
    split; [intros; contradiction|]. split; [intros; contradiction|].
    intros _ _. split; [reflexivity|]. split; [reflexivity|].
    apply writes_after_read.
Qed.

Lemma set_rate_commits_by_exact_match_witness :
  exists r s',
    sun4i_pll2_set_rate 22579200 24000000 (mk_iomem 0xFFFFFFFF []) = Some (r, s') /\
    r = 0 /\
    Spec.field (reg s') 8 7 = 79 /\
    Spec.field (reg s') 0 5 = 21 /\
    Spec.field (reg s') 26 4 = 4.
Proof.
  destruct (set_rate_commits_by_exact_match 22579200 24000000 (mk_iomem 0xFFFFFFFF []))
    as (r & s' & Hrun & H79 & _ & _).
  destruct (H79 eq_refl) as (Hr & _ & HN & HP & HS).
  exists r, s'. repeat split; assumption.
Defined.

(** C3: whenever [sun4i_pll2_set_rate] returns [-EINVAL], the requested rate
    is neither 22,579,200 nor 24,576,000, the register holds what it held
    before, and the only access made was the initial read: no write of any
    kind was issued. *)
Theorem set_rate_error_leaves_register (rate parent_rate : Z) (s s' : iomem) :
  sun4i_pll2_set_rate rate parent_rate s = Some (- EINVAL, s') ->
  rate <> 22579200 /\ rate <> 24576000 /\
  reg s' = reg s /\
  trace s' = trace s ++ [Readl (reg s)] /\
  writes (trace s') = writes (trace s).
Proof.
  intros Hrun.
  destruct (Z.eq_dec rate 22579200) as [-> | H1];
    [| destruct (Z.eq_dec rate 24576000) as [-> | H2]].
  - rewrite set_rate_eq_22579200 in Hrun. discriminate Hrun.
  - rewrite set_rate_eq_24576000 in Hrun. discriminate Hrun.
  - rewrite set_rate_eq_other in Hrun by assumption.
    injection Hrun as <-.
    repeat split; try assumption; try reflexivity.
    apply writes_after_read.
Qed.

Lemma set_rate_error_leaves_register_witness :
  reg (after_read (mk_iomem 0x90004F15 [])) = 0x90004F15 /\
  writes (trace (after_read (mk_iomem 0x90004F15 []))) = [].
Proof.
  destruct (set_rate_error_leaves_register 48000 24000000
              (mk_iomem 0x90004F15 []) (after_read (mk_iomem 0x90004F15 [])))
    as (_ & _ & Hreg & _ & Hw).
  - reflexivity.
  - split; [exact Hreg | exact Hw].
Defined.

(** C4: for every prior register value, a successful
    [sun4i_pll2_set_rate] is one read followed by one write whose value has
    P = 21, S = 4 and N = 79 or 86 in the three rate fields, and agrees with
    the value read on every other bit of the 32-bit word: the enable bit
    (bit 31) and all bits outside bits 0-4, 8-14 and 26-29. *)
Theorem set_rate_preserves_other_bits (rate parent_rate : Z) (s s' : iomem) :
  sun4i_pll2_set_rate rate parent_rate s = Some (0, s') ->
  trace s' = trace s ++ [Readl (reg s); Writel (reg s')] /\
  (Spec.field (reg s') 8 7 = 79 \/ Spec.field (reg s') 8 7 = 86) /\
  Spec.field (reg s') 0 5 = 21 /\
  Spec.field (reg s') 26 4 = 4 /\
  Z.testbit (reg s') SUN4I_PLL2_ENABLE = Z.testbit (reg s) SUN4I_PLL2_ENABLE /\
  (forall i, 0 <= i < 32 -> Spec.in_rate_field i = false ->
             Z.testbit (reg s') i = Z.testbit (reg s) i) /\
  is_u32 (reg s').
Proof.
  intros Hrun.
  assert (Hn : exists n, (n = 79 \/ n = 86) /\
                 s' = mk_iomem (committed (reg s) n)
                        (trace s ++ [Readl (reg s); Writel (committed (reg s) n)])).
  { destruct (Z.eq_dec rate 22579200) as [-> | H1];
      [| destruct (Z.eq_dec rate 24576000) as [-> | H2]].
    - rewrite set_rate_eq_22579200 in Hrun. injection Hrun as <-.
      exists 79. split; [now left | reflexivity].
    - rewrite set_rate_eq_24576000 in Hrun. injection Hrun as <-.
      exists 86. split; [now right | reflexivity].
    - rewrite set_rate_eq_other in Hrun by assumption. discriminate Hrun. }
  destruct Hn as (n & Hn & ->). cbn [reg trace].
  destruct (committed_fields (reg s) n Hn) as (HN & HP & HS).
  split; [reflexivity|].
  split; [rewrite HN; exact Hn|].
  split; [exact HP|]. split; [exact HS|].
  split; [apply committed_frame; [exact Hn | unfold SUN4I_PLL2_ENABLE; lia | reflexivity]|].
  split; [intros i Hi Hf; now apply committed_frame|].
  now apply committed_u32.
Qed.

Lemma set_rate_preserves_other_bits_witness :
  Z.testbit 0x900056F5 31 = Z.testbit 0x800000E0 31 /\
  Z.testbit 0x900056F5 7 = Z.testbit 0x800000E0 7.
Proof.
  destruct (set_rate_preserves_other_bits 24576000 24000000
              (mk_iomem 0x800000E0 [])
              (mk_iomem 0x900056F5 [Readl 0x800000E0; Writel 0x900056F5]))
    as (_ & _ & _ & _ & Hen & Hframe & _).
  - reflexivity.
  - split; [exact Hen | apply Hframe; [lia | reflexivity]].
Defined.

(** * View 1x: [round_rate] *)

(** C2: for every requested rate [x], [sun4i_pll2_1x_round_rate] returns
    [-EINVAL] when [x] is in [0, 22,579,199], returns 22,579,200 when [x] is
    in [22,579,200, 24,575,999], and returns 24,576,000 when
    [x >= 24,576,000], however large; it touches neither the register nor
    the parent rate. *)
Theorem round_rate_1x_snaps (x parent_rate : Z) (s : iomem) :
  (0 <= x <= 22579199 ->
   sun4i_pll2_1x_round_rate x parent_rate s = Some (- EINVAL, parent_rate, s)) /\
  (22579200 <= x <= 24575999 ->
   sun4i_pll2_1x_round_rate x parent_rate s = Some (22579200, parent_rate, s)) /\
  (24576000 <= x ->
   sun4i_pll2_1x_round_rate x parent_rate s = Some (24576000, parent_rate, s)).
Proof.
  unfold sun4i_pll2_1x_round_rate, ret.
  repeat split; intros Hx;
    destruct (Z.ltb_spec x 22579200); try lia;
    destruct (Z.geb_spec x 22579200); try lia;
    destruct (Z.ltb_spec x 24576000); try lia; reflexivity.
Qed.

Lemma round_rate_1x_snaps_witness :
  sun4i_pll2_1x_round_rate 22579199 0 (fresh 0) = Some (- EINVAL, 0, fresh 0) /\
  sun4i_pll2_1x_round_rate 24575999 0 (fresh 0) = Some (22579200, 0, fresh 0) /\
  sun4i_pll2_1x_round_rate (2 ^ 64 - 1) 0 (fresh 0) = Some (24576000, 0, fresh 0).
Proof.
  split; [| split].
  - apply (proj1 (round_rate_1x_snaps 22579199 0 (fresh 0))). lia.
  - apply (proj1 (proj2 (round_rate_1x_snaps 24575999 0 (fresh 0)))). lia.
  - apply (proj2 (proj2 (round_rate_1x_snaps (2 ^ 64 - 1) 0 (fresh 0)))). lia.
Defined.

(** * Decoding: zero means one *)

(** C5: for every register value and parent rate, every [recalc_rate]
    callback returns (no division by zero), and the value it computes uses
    multiplier [n], pre-divider [p] and, for View 1x, post-divider [d], where
    each is 1 if its bitfield holds 0 and the bitfield's value otherwise,
    independently of the other two; all three are at least 1. *)
Theorem recalc_rate_zero_means_one (a : arch) (parent_rate : Z) (s : iomem) :
  exists n p d,
    (Spec.field (reg s) 8 7 = 0 -> n = 1) /\
    (Spec.field (reg s) 8 7 <> 0 -> n = Spec.field (reg s) 8 7) /\
    (Spec.field (reg s) 0 5 = 0 -> p = 1) /\
    (Spec.field (reg s) 0 5 <> 0 -> p = Spec.field (reg s) 0 5) /\
    (Spec.field (reg s) 26 4 = 0 -> d = 1) /\
    (Spec.field (reg s) 26 4 <> 0 -> d = Spec.field (reg s) 26 4) /\
    1 <= n /\ 1 <= p /\ 1 <= d /\
    sun4i_pll2_1x_recalc_rate a parent_rate s =
      Some (Z.quot (Z.quot (mul_ulong a parent_rate n) p) d, after_read s) /\
    sun4i_pll2_8x_recalc_rate a parent_rate s =
      Some (Z.quot (mul_ulong a (mul_ulong a parent_rate 2) n) p, after_read s) /\
    sun4i_pll2_4x_recalc_rate a parent_rate s =
      Some (Z.quot (mul_ulong a (mul_ulong a (Z.quot parent_rate 2) 2) n) p,
            after_read s) /\
    sun4i_pll2_2x_recalc_rate a parent_rate s =
      Some (Z.quot (mul_ulong a (mul_ulong a (Z.quot parent_rate 4) 2) n) p,
            after_read s).
Proof.
  exists (Spec.N (reg s)), (Spec.P (reg s)), (Spec.S (reg s)).
  pose proof (N_range (reg s)). pose proof (P_range (reg s)).
  pose proof (S_range (reg s)).
  rewrite recalc_4x_eq, recalc_2x_eq, !recalc_8x_eq, recalc_1x_eq.
  unfold Spec.N, Spec.P, Spec.S, Spec.zero_means_one in *.
  destruct (Z.eqb_spec (Spec.field (reg s) 8 7) 0);
    destruct (Z.eqb_spec (Spec.field (reg s) 0 5) 0);
    destruct (Z.eqb_spec (Spec.field (reg s) 26 4) 0);
    repeat split; intros; try reflexivity; try lia.
Qed.

Lemma recalc_rate_zero_means_one_witness :
  sun4i_pll2_1x_recalc_rate ILP32 24000000 (fresh 0x1500) =
  Some (Z.quot (Z.quot (mul_ulong ILP32 24000000 21) 1) 1, after_read (fresh 0x1500)).
Proof.
  destruct (recalc_rate_zero_means_one ILP32 24000000 (fresh 0x1500))
    as (n & p & d & _ & Hn & Hp & _ & Hd & _ & _ & _ & _ & H1x & _).
  rewrite (Hn ltac:(discriminate)), (Hp eq_refl), (Hd eq_refl) in H1x.
  exact H1x.
Defined.

(** * View 1x: [recalc_rate] *)

Lemma mul_ulong_exact a x y :
  0 <= x * y < 2 ^ BITS_PER_LONG a -> mul_ulong a x y = x * y.
Proof. intros H. now apply Z.mod_small. Qed.

(** The claim of C6 read over the integers fails where the product leaves
    the range of [unsigned long]: on a 32-bit kernel, a 50 MHz parent with
    N = 127 (P and S stored as 0) yields 2,055,032,704 and not
    6,350,000,000; on a 64-bit kernel a parent rate of 2^63 with N = 2
    yields 0. *)
Lemma recalc_1x_product_wraps :
  is_ulong ILP32 50000000 /\ is_u32 0x7F00 /\
  result (sun4i_pll2_1x_recalc_rate ILP32 50000000 (fresh 0x7F00)) = Some 2055032704 /\
  50000000 * Spec.N 0x7F00 / Spec.P 0x7F00 / Spec.S 0x7F00 = 6350000000 /\
  is_ulong LP64 (2 ^ 63) /\ is_u32 0x200 /\
  result (sun4i_pll2_1x_recalc_rate LP64 (2 ^ 63) (fresh 0x200)) = Some 0 /\
  2 ^ 63 * Spec.N 0x200 / Spec.P 0x200 / Spec.S 0x200 = 2 ^ 64.
Proof.
  unfold is_ulong, is_u32.
  repeat split; try reflexivity; try (cbn; lia).
Qed.

(** C6 (amended): for every parent rate and register value,
    [sun4i_pll2_1x_recalc_rate] returns
    [(((parent_rate * N) mod 2^BITS_PER_LONG) / P) / S] with truncating
    division, the product being taken in [unsigned long]; N, P and S are the
    decoded fields after zero-means-one substitution, all at least 1.  When
    [parent_rate * N] fits in an [unsigned long], that is
    [((parent_rate * N) / P) / S]. *)
Theorem recalc_1x_formula (a : arch) (parent_rate : Z) (s : iomem) :
  1 <= Spec.N (reg s) /\ 1 <= Spec.P (reg s) /\ 1 <= Spec.S (reg s) /\
  sun4i_pll2_1x_recalc_rate a parent_rate s =
    Some ((parent_rate * Spec.N (reg s)) mod 2 ^ BITS_PER_LONG a
            / Spec.P (reg s) / Spec.S (reg s),
          after_read s) /\
  (0 <= parent_rate ->
   parent_rate * Spec.N (reg s) < 2 ^ BITS_PER_LONG a ->
   sun4i_pll2_1x_recalc_rate a parent_rate s =
     Some (parent_rate * Spec.N (reg s) / Spec.P (reg s) / Spec.S (reg s),
           after_read s)).
Proof.
  pose proof (N_range (reg s)) as HN. pose proof (P_range (reg s)) as HP.
  pose proof (S_range (reg s)) as HS.
  assert (E : sun4i_pll2_1x_recalc_rate a parent_rate s =
              Some ((parent_rate * Spec.N (reg s)) mod 2 ^ BITS_PER_LONG a
                      / Spec.P (reg s) / Spec.S (reg s),
                    after_read s)).
  { rewrite recalc_1x_eq. unfold mul_ulong, cast_ulong.
    pose proof (Z.mod_pos_bound (parent_rate * Spec.N (reg s)) _ (modulus_pos a)) as Hm.
    rewrite (quot_div_nonneg _ (Spec.P (reg s))) by lia.
    rewrite quot_div_nonneg; [reflexivity | | lia].
    apply Z.div_pos; lia. }
  repeat split; try lia; [exact E|].
  intros Hp Hfit. rewrite E. rewrite Z.mod_small; [reflexivity|]. nia.
Qed.

Lemma recalc_1x_formula_witness :
  sun4i_pll2_1x_recalc_rate ILP32 24000000 (fresh 0x10005615) =
  Some (24000000 * 86 / 21 / 4, after_read (fresh 0x10005615)).
Proof.
  apply (proj2 (proj2 (proj2 (proj2
           (recalc_1x_formula ILP32 24000000 (fresh 0x10005615)))))).
  - lia.
  - reflexivity.
Defined.

(** * Views 2x and 4x against View 8x *)

(** The claim of C7 fails already for a parent rate of 3 over a cleared
    register: View 8x yields 6, View 4x yields 2 and View 2x yields 0,
    neither half nor a quarter of 6, with or without truncation. *)
Lemma recalc_2x_4x_not_fractions_of_8x :
  result (sun4i_pll2_8x_recalc_rate ILP32 3 (fresh 0)) = Some 6 /\
  result (sun4i_pll2_4x_recalc_rate ILP32 3 (fresh 0)) = Some 2 /\
  result (sun4i_pll2_2x_recalc_rate ILP32 3 (fresh 0)) = Some 0 /\
  2 * 2 <> 6 /\ 2 <> 6 / 2 /\ 4 * 0 <> 6 /\ 0 <> 6 / 4.
Proof. repeat split; try reflexivity; cbn; lia. Qed.

(** C7 (amended): for every parent rate and register value, View 4x's
    recalculated rate is View 8x's at the halved parent rate and View 2x's is
    View 8x's at the quartered parent rate (truncating).  When
    [parent_rate * 2 * N] fits in an [unsigned long], View 4x's rate is View
    8x's rate at the same parent rate divided by 2 (truncating) provided the
    parent rate is even, and View 2x's is View 8x's divided by 4 (truncating)
    provided the parent rate is a multiple of 4. *)
Theorem recalc_2x_4x_delegate_to_8x (a : arch) (parent_rate : Z) (s : iomem) :
  sun4i_pll2_4x_recalc_rate a parent_rate s =
    sun4i_pll2_8x_recalc_rate a (Z.quot parent_rate 2) s /\
  sun4i_pll2_2x_recalc_rate a parent_rate s =
    sun4i_pll2_8x_recalc_rate a (Z.quot parent_rate 4) s /\
  (0 <= parent_rate ->
   parent_rate * 2 * Spec.N (reg s) < 2 ^ BITS_PER_LONG a ->
   exists r8,
     result (sun4i_pll2_8x_recalc_rate a parent_rate s) = Some r8 /\
     r8 = parent_rate * 2 * Spec.N (reg s) / Spec.P (reg s) /\
     (parent_rate mod 2 = 0 ->
      result (sun4i_pll2_4x_recalc_rate a parent_rate s) = Some (r8 / 2)) /\
     (parent_rate mod 4 = 0 ->
      result (sun4i_pll2_2x_recalc_rate a parent_rate s) = Some (r8 / 4))).
Proof.
  split; [apply recalc_4x_eq|]. split; [apply recalc_2x_eq|].
  intros Hp Hfit.
  pose proof (N_range (reg s)) as HN. pose proof (P_range (reg s)) as HP.
  set (n := Spec.N (reg s)) in *. set (p := Spec.P (reg s)) in *.
  assert (E8 : forall x, 0 <= x <= parent_rate ->
             result (sun4i_pll2_8x_recalc_rate a x s) = Some (x * 2 * n / p)).
  { intros x Hx. rewrite recalc_8x_eq. cbn [result option_map fst].
    fold n p.
    rewrite (mul_ulong_exact a x 2) by nia.
    rewrite mul_ulong_exact by nia.
    rewrite quot_div_nonneg by nia. reflexivity. }
  exists (parent_rate * 2 * n / p).
  split; [apply E8; lia|]. split; [reflexivity|].
  split; intros Hdiv.
  - rewrite recalc_4x_eq, quot_div_nonneg by lia.
    rewrite E8 by (split; [apply Z.div_pos; lia | apply Z.div_le_upper_bound; lia]).
    f_equal.
    rewrite Z.div_div by lia.
    assert (Hh : parent_rate = 2 * (parent_rate / 2))
      by (rewrite (Z.div_mod parent_rate 2) at 1 by lia; lia).
    rewrite Hh at 2.
    replace (2 * (parent_rate / 2) * 2 * n) with (parent_rate / 2 * 2 * n * 2) by ring.
    now rewrite Z.div_mul_cancel_r by lia.
  - rewrite recalc_2x_eq, quot_div_nonneg by lia.
    rewrite E8 by (split; [apply Z.div_pos; lia | apply Z.div_le_upper_bound; lia]).
    f_equal.
    rewrite Z.div_div by lia.
    assert (Hh : parent_rate = 4 * (parent_rate / 4))
      by (rewrite (Z.div_mod parent_rate 4) at 1 by lia; lia).
    rewrite Hh at 2.
    replace (4 * (parent_rate / 4) * 2 * n) with (parent_rate / 4 * 2 * n * 4) by ring.
    now rewrite Z.div_mul_cancel_r by lia.
Qed.

Lemma recalc_2x_4x_delegate_to_8x_witness :
  exists r8,
    result (sun4i_pll2_8x_recalc_rate ILP32 24576000 (fresh 0x10005615)) = Some r8 /\
    r8 = 201289142 /\
    result (sun4i_pll2_4x_recalc_rate ILP32 24576000 (fresh 0x10005615)) = Some (r8 / 2) /\
    result (sun4i_pll2_2x_recalc_rate ILP32 24576000 (fresh 0x10005615)) = Some (r8 / 4).
Proof.
  destruct (proj2 (proj2 (recalc_2x_4x_delegate_to_8x ILP32 24576000 (fresh 0x10005615))))
    as (r8 & H8 & Hr & H4 & H2).
  - lia.
  - reflexivity.
  - exists r8. split; [exact H8|]. split; [rewrite Hr; reflexivity|].
    split; [apply H4; reflexivity | apply H2; reflexivity].
Defined.

(** * End to end *)

(** The claim of C8 fails: after [set_rate] to 24,576,000 from a cleared
    register, [recalc_rate] at a parent rate of 24,576,000 yields
    25,161,142 and not 24,576,000, on 32-bit and 64-bit kernels alike. *)
Lemma end_to_end_recalc_differs :
  exists s1,
    sun4i_pll2_set_rate 24576000 24576000 (fresh 0) = Some (0, s1) /\
    result (sun4i_pll2_1x_recalc_rate ILP32 24576000 s1) = Some 25161142 /\
    result (sun4i_pll2_1x_recalc_rate LP64 24576000 s1) = Some 25161142 /\
    result (sun4i_pll2_1x_recalc_rate ILP32 24576000 s1) <> Some 24576000 /\
    result (sun4i_pll2_1x_recalc_rate LP64 24576000 s1) <> Some 24576000.
Proof.
  eexists. split; [apply set_rate_eq_24576000|].
  repeat split; try reflexivity; discriminate.
Qed.

(** C8 (amended): starting from register value 0,
    [sun4i_pll2_set_rate 24576000 24576000] succeeds, committing N = 86,
    P = 21 and S = 4 (register 0x10005615), and a subsequent
    [sun4i_pll2_1x_recalc_rate 24576000] returns 25,161,142, which is
    24,576,000 * 86 / 21 / 4 under truncating integer division. *)
Theorem end_to_end_set_then_recalc (a : arch) :
  exists s1,
    sun4i_pll2_set_rate 24576000 24576000 (fresh 0) = Some (0, s1) /\
    reg s1 = 0x10005615 /\
    Spec.field (reg s1) 8 7 = 86 /\
    Spec.field (reg s1) 0 5 = 21 /\
    Spec.field (reg s1) 26 4 = 4 /\
    result (sun4i_pll2_1x_recalc_rate a 24576000 s1) = Some 25161142 /\
    24576000 * 86 / 21 / 4 = 25161142.
Proof.
  eexists. split; [apply set_rate_eq_24576000|].
  destruct a; repeat split; reflexivity.
Qed.

(** * View 8x: [round_rate] *)

(** The claim of C9 fails for large requests: on a 32-bit kernel a request
    of 2^30 makes [r * 4] wrap to 0, so the suggestion written is 0 and not
    [r * 2] = 2^31 (which an [unsigned long] can hold); likewise 2^62 on a
    64-bit kernel.  A request of 2^31 (2^63) moreover comes back as the
    negative [long] -2^31 (-2^63), not as the request itself. *)
Lemma round_rate_8x_suggestion_wraps :
  is_ulong ILP32 (2 ^ 30) /\
  result (sun4i_pll2_8x_round_rate ILP32 (2 ^ 30) 0 (fresh 0)) = Some (2 ^ 30, 0) /\
  cast_ulong ILP32 (2 ^ 30 * 2) = 2 ^ 31 /\
  is_ulong LP64 (2 ^ 62) /\
  result (sun4i_pll2_8x_round_rate LP64 (2 ^ 62) 0 (fresh 0)) = Some (2 ^ 62, 0) /\
  cast_ulong LP64 (2 ^ 62 * 2) = 2 ^ 63 /\
  is_ulong ILP32 (2 ^ 31) /\
  result (sun4i_pll2_8x_round_rate ILP32 (2 ^ 31) 0 (fresh 0)) = Some (- 2 ^ 31, 0) /\
  is_ulong LP64 (2 ^ 63) /\
  result (sun4i_pll2_8x_round_rate LP64 (2 ^ 63) 0 (fresh 0)) = Some (- 2 ^ 63, 0).
Proof.
  unfold is_ulong. repeat split; try reflexivity; cbn; lia.
Qed.

(** C9 (amended): for every requested rate [r], [sun4i_pll2_8x_round_rate]
    returns [r] converted to [long] and writes the parent-rate suggestion
    [((r * 4) mod 2^BITS_PER_LONG) / 2], leaving the register alone.  The
    value returned is [r] itself when [r < 2^(BITS_PER_LONG - 1)], and the
    suggestion equals [r * 2] when [r < 2^(BITS_PER_LONG - 2)]. *)
Theorem round_rate_8x_pass_through (a : arch) (r parent_rate : Z) (s : iomem) :
  sun4i_pll2_8x_round_rate a r parent_rate s =
    Some (cast_long a r, (r * 4) mod 2 ^ BITS_PER_LONG a / 2, s) /\
  (0 <= r < 2 ^ (BITS_PER_LONG a - 1) -> cast_long a r = r) /\
  (0 <= r < 2 ^ (BITS_PER_LONG a - 2) ->
   (r * 4) mod 2 ^ BITS_PER_LONG a / 2 = r * 2).
Proof.
  split; [| split].
  - rewrite round_8x_eq. unfold mul_ulong, cast_ulong.
    pose proof (Z.mod_pos_bound (r * 4) _ (modulus_pos a)).
    rewrite quot_div_nonneg by lia. reflexivity.
  - intros Hr. unfold cast_long.
    assert (Hw : 2 ^ BITS_PER_LONG a = 2 * 2 ^ (BITS_PER_LONG a - 1))
      by (destruct a; reflexivity).
    rewrite Z.mod_small by lia.
    destruct (Z.ltb_spec r (2 ^ (BITS_PER_LONG a - 1))); lia.
  - intros Hr.
    assert (Hw : 2 ^ BITS_PER_LONG a = 4 * 2 ^ (BITS_PER_LONG a - 2))
      by (destruct a; reflexivity).
    rewrite Z.mod_small by lia.
    replace (r * 4) with (r * 2 * 2) by ring.
    apply Z.div_mul. lia.
Qed.

Lemma round_rate_8x_pass_through_witness :
  sun4i_pll2_8x_round_rate ILP32 180633600 0 (fresh 0) =
    Some (180633600, 361267200, fresh 0).
Proof.
  destruct (round_rate_8x_pass_through ILP32 180633600 0 (fresh 0))
    as (Hrun & Hret & Hsug).
  rewrite Hret, Hsug in Hrun.
  - exact Hrun.
  - cbn; lia.
  - cbn; lia.
Defined.

(** * Who writes the register *)

(** C10: on every view and for every input, [recalc_rate] and [round_rate]
    return with the register holding what it held before and without having
    issued any write; only View 1x has a [set_rate], and that operation does
    write the register. *)
Theorem only_set_rate_writes (a : arch) (v : view) (s : iomem) :
  (forall parent_rate, exists r s',
      recalc_rate (ops_of a v) parent_rate s = Some (r, s') /\
      reg s' = reg s /\ writes (trace s') = writes (trace s)) /\
  (forall rate parent_rate, exists r s',
      round_rate (ops_of a v) rate parent_rate s = Some (r, s') /\
      reg s' = reg s /\ trace s' = trace s) /\
  set_rate (ops_of a v) =
    match v with
    | View1x => Some sun4i_pll2_set_rate
    | _ => None
    end /\
  (exists s1, sun4i_pll2_set_rate 24576000 24000000 (fresh 0) = Some (0, s1) /\
              reg s1 <> reg (fresh 0) /\
              writes (trace s1) = [Writel (reg s1)]).
Proof.
  split; [| split; [| split]].
  - intros parent_rate.
    destruct v; cbn [ops_of recalc_rate sun4i_pll2_ops_1x sun4i_pll2_ops_2x
                       sun4i_pll2_ops_4x sun4i_pll2_ops_8x];
      rewrite ?recalc_4x_eq, ?recalc_2x_eq, ?recalc_8x_eq, ?recalc_1x_eq;
      eexists _, _; (split; [reflexivity|]);
      (split; [reflexivity | apply writes_after_read]).
  - intros rate parent_rate.
    destruct v; cbn [ops_of round_rate sun4i_pll2_ops_1x sun4i_pll2_ops_2x
                       sun4i_pll2_ops_4x sun4i_pll2_ops_8x].
    + unfold sun4i_pll2_1x_round_rate, ret.
      destruct (rate <? 22579200);
        [| destruct ((rate >=? 22579200) && (rate <? 24576000))];
        eexists _, _; repeat split.
    + unfold sun4i_pll2_2x_round_rate. rewrite round_8x_eq.
      eexists _, _; repeat split.
    + unfold sun4i_pll2_4x_round_rate. rewrite round_8x_eq.
      eexists _, _; repeat split.
    + rewrite round_8x_eq. eexists _, _; repeat split.
  - destruct v; reflexivity.
  - eexists. split; [apply set_rate_eq_24576000|].
    split; [discriminate | reflexivity].
Qed.

(** * Further properties of the callbacks *)

(** ** Helper lemmas *)

Lemma round_8x_small a r parent_rate s :
  0 <= r < 2 ^ (BITS_PER_LONG a - 2) ->
  sun4i_pll2_8x_round_rate a r parent_rate s = Some (r, r * 2, s).
Proof.
  intros Hr. rewrite round_8x_eq.
  assert (Hw : 2 ^ BITS_PER_LONG a = 4 * 2 ^ (BITS_PER_LONG a - 2))
    by (destruct a; reflexivity).
  assert (Hh : 2 ^ (BITS_PER_LONG a - 1) = 2 * 2 ^ (BITS_PER_LONG a - 2))
    by (destruct a; reflexivity).
  rewrite mul_ulong_exact by lia.
  unfold cast_long. rewrite Z.mod_small by lia.
  destruct (Z.ltb_spec r (2 ^ (BITS_PER_LONG a - 1))); [| lia].
  rewrite quot_div_nonneg by lia.
  replace (r * 4) with (r * 2 * 2) by ring.
  now rewrite Z.div_mul by lia.
Qed.

Lemma committed_twice v m n :
  m = 79 \/ m = 86 ->
  committed (committed v m) n = committed v n.
Proof.
  intros Hm. unfold committed.
  rewrite Z.land_lor_distr_l, <- Z.land_assoc, <- Z.lor_assoc.
  change (Z.land 0xC3FF80E0 0xC3FF80E0) with 0xC3FF80E0.
  destruct Hm as [-> | ->].
  - change (Z.land (Z.lor 0x10000015 (Z.shiftl 79 8)) 0xC3FF80E0) with 0.
    now rewrite Z.lor_0_l.
  - change (Z.land (Z.lor 0x10000015 (Z.shiftl 86 8)) 0xC3FF80E0) with 0.
    now rewrite Z.lor_0_l.
Qed.

Lemma committed_N v n : n = 79 \/ n = 86 -> Spec.N (committed v n) = n.
Proof.
  intros Hn. unfold Spec.N.
  destruct (committed_fields v n Hn) as (-> & _).
  destruct Hn as [-> | ->]; reflexivity.
Qed.

Lemma committed_P v n : n = 79 \/ n = 86 -> Spec.P (committed v n) = 21.
Proof.
  intros Hn. unfold Spec.P.
  destruct (committed_fields v n Hn) as (_ & -> & _). reflexivity.
Qed.

Lemma committed_S v n : n = 79 \/ n = 86 -> Spec.S (committed v n) = 4.
Proof.
  intros Hn. unfold Spec.S.
  destruct (committed_fields v n Hn) as (_ & _ & ->). reflexivity.
Qed.

(** What a successful [set_rate] leaves: the multiplier chosen and the state. *)
Lemma set_rate_success rate parent_rate s s1 :
  sun4i_pll2_set_rate rate parent_rate s = Some (0, s1) ->
  exists n,
    (rate = 22579200 /\ n = 79 \/ rate = 24576000 /\ n = 86) /\
    s1 = mk_iomem (committed (reg s) n)
           (trace s ++ [Readl (reg s); Writel (committed (reg s) n)]).
Proof.
  intros Hrun.
  destruct (Z.eq_dec rate 22579200) as [-> | H1];
    [| destruct (Z.eq_dec rate 24576000) as [-> | H2]].
  - rewrite set_rate_eq_22579200 in Hrun. injection Hrun as <-.
    exists 79. split; [left; now split | reflexivity].
  - rewrite set_rate_eq_24576000 in Hrun. injection Hrun as <-.
    exists 86. split; [right; now split | reflexivity].
  - rewrite set_rate_eq_other in Hrun by assumption. discriminate Hrun.
Qed.

Lemma field_agree v v' k w :
  0 <= k -> 0 <= w ->
  (forall j, k <= j < k + w -> Z.testbit v j = Z.testbit v' j) ->
  Spec.field v k w = Spec.field v' k w.
Proof.
  intros Hk Hw Hbits.
  rewrite <- !field_shift_mask by assumption.
  apply Z.bits_inj'. intros j Hj.
  rewrite !Z.land_spec, !Z.shiftr_spec by assumption.
  destruct (Z_lt_le_dec j w) as [Hlt | Hge].
  - rewrite Hbits by lia. reflexivity.
  - rewrite Z.ones_spec_high by lia. now rewrite !andb_false_r.
Qed.

Lemma in_rate_field_true i :
  Spec.in_rate_field i = true <-> 0 <= i < 5 \/ 8 <= i < 15 \/ 26 <= i < 30.
Proof. unfold Spec.in_rate_field. lia. Qed.

(** ** Views 4x and 2x: [round_rate] *)

(** X1: while the scaled request stays in range, the View 4x [round_rate]
    answers a request [r] with the rate [2 * r] and the parent-rate
    suggestion [4 * r], and the View 2x [round_rate] answers with [4 * r] and
    the suggestion [8 * r]: each reports the equivalent View 8x rate, not the
    request, and neither touches the register. *)
Theorem round_rate_4x_2x_scale (a : arch) (r parent_rate : Z) (s : iomem) :
  (0 <= r < 2 ^ (BITS_PER_LONG a - 3) ->
   sun4i_pll2_4x_round_rate a r parent_rate s = Some (r * 2, r * 4, s)) /\
  (0 <= r < 2 ^ (BITS_PER_LONG a - 4) ->
   sun4i_pll2_2x_round_rate a r parent_rate s = Some (r * 4, r * 8, s)).
Proof.
  assert (H1 : 2 ^ BITS_PER_LONG a = 16 * 2 ^ (BITS_PER_LONG a - 4))
    by (destruct a; reflexivity).
  assert (H2 : 2 ^ (BITS_PER_LONG a - 2) = 4 * 2 ^ (BITS_PER_LONG a - 4))
    by (destruct a; reflexivity).
  assert (H3 : 2 ^ (BITS_PER_LONG a - 3) = 2 * 2 ^ (BITS_PER_LONG a - 4))
    by (destruct a; reflexivity).
  split; intros Hr.
  - unfold sun4i_pll2_4x_round_rate.
    rewrite mul_ulong_exact by lia. rewrite round_8x_small by lia.
    do 3 f_equal. ring.
  - unfold sun4i_pll2_2x_round_rate.
    rewrite mul_ulong_exact by lia. rewrite round_8x_small by lia.
    do 3 f_equal. ring.
Qed.

Lemma round_rate_4x_2x_scale_witness :
  sun4i_pll2_4x_round_rate ILP32 48000 0 (fresh 0) = Some (96000, 192000, fresh 0) /\
  sun4i_pll2_2x_round_rate ILP32 48000 0 (fresh 0) = Some (192000, 384000, fresh 0).
Proof.
  split.
  - apply (proj1 (round_rate_4x_2x_scale ILP32 48000 0 (fresh 0))). cbn; lia.
  - apply (proj2 (round_rate_4x_2x_scale ILP32 48000 0 (fresh 0))). cbn; lia.
Defined.

(** ** View 1x: rounding and committing *)

(** X2: the View 1x [round_rate] never rounds up and is idempotent: it
    either rejects the request (exactly when it is below 22,579,200) or
    returns one of the two checkpoints, which is at most the request and is
    itself returned unchanged when rounded again. *)
Theorem round_rate_1x_rounds_down (x parent_rate : Z) (s : iomem) :
  exists r,
    sun4i_pll2_1x_round_rate x parent_rate s = Some (r, parent_rate, s) /\
    ((x < 22579200 /\ r = - EINVAL) \/
     (22579200 <= x /\ (r = 22579200 \/ r = 24576000) /\ r <= x /\
      sun4i_pll2_1x_round_rate r parent_rate s = Some (r, parent_rate, s))).
Proof.
  unfold sun4i_pll2_1x_round_rate, ret.
  destruct (Z.ltb_spec x 22579200) as [Hlt | Hge].
  - eexists. split; [reflexivity|]. left. now split.
  - destruct (Z.geb_spec x 22579200); [| lia].
    destruct (Z.ltb_spec x 24576000); cbn [andb];
      (eexists; split; [reflexivity|]); right;
      (split; [assumption|]); (split; [auto|]); (split; [lia | reflexivity]).
Qed.

(** X3: for a requested rate [x >= 0], [set_rate] accepts [x] exactly when
    the View 1x [round_rate] returns [x] unchanged, and every rate that
    [round_rate] returns without error is accepted by [set_rate]. *)
Theorem set_rate_accepts_rounded_rates (x parent_rate p : Z) (s : iomem) :
  0 <= x ->
  ((exists s1, sun4i_pll2_set_rate x parent_rate s = Some (0, s1)) <->
   result (sun4i_pll2_1x_round_rate x p s) = Some (x, p)) /\
  (forall r p', result (sun4i_pll2_1x_round_rate x p s) = Some (r, p') ->
                0 <= r ->
                exists s1, sun4i_pll2_set_rate r parent_rate s = Some (0, s1)).
Proof.
  intros Hx. split.
  - split.
    + intros (s1 & Hrun).
      destruct (set_rate_success _ _ _ _ Hrun) as (n & [(-> & _) | (-> & _)] & _);
        reflexivity.
    + unfold sun4i_pll2_1x_round_rate, ret, result.
      destruct (Z.ltb_spec x 22579200) as [Hlt | Hge]; cbn [option_map fst].
      * intros H. injection H as H. unfold EINVAL in H. lia.
      * destruct (Z.geb_spec x 22579200); [| lia].
        destruct (Z.ltb_spec x 24576000); cbn [andb option_map fst];
          intros Heq; injection Heq as <-; eexists.
        -- apply set_rate_eq_22579200.
        -- apply set_rate_eq_24576000.
  - intros r p'.
    unfold sun4i_pll2_1x_round_rate, ret, result.
    destruct (Z.ltb_spec x 22579200) as [Hlt | Hge]; cbn [option_map fst].
    + intros H Hr. injection H as <- _. unfold EINVAL in Hr. lia.
    + destruct ((x >=? 22579200) && (x <? 24576000)); cbn [option_map fst];
        intros H _; injection H as <- _; eexists.
      * apply set_rate_eq_22579200.
      * apply set_rate_eq_24576000.
Qed.

Lemma set_rate_accepts_rounded_rates_witness :
  exists s1, sun4i_pll2_set_rate 22579200 24000000 (fresh 0) = Some (0, s1).
Proof.
  destruct (set_rate_accepts_rounded_rates 23000000 24000000 0 (fresh 0)) as (_ & H).
  - lia.
  - apply (H 22579200 0); [reflexivity | lia].
Defined.

(** X4: the last successful [set_rate] wins: committing a checkpoint after
    any earlier [set_rate] call, accepted or rejected, leaves the register as
    committing that checkpoint alone would; in particular repeating a
    [set_rate] changes nothing. *)
Theorem set_rate_last_write_wins (r1 r2 p1 p2 : Z) (s : iomem) :
  r2 = 22579200 \/ r2 = 24576000 ->
  reg_after ((sun4i_pll2_set_rate r1 p1 ;;; sun4i_pll2_set_rate r2 p2) s) =
  reg_after (sun4i_pll2_set_rate r2 p2 s).
Proof.
  intros Hr2. unfold bind.
  assert (E2 : forall t, reg_after (sun4i_pll2_set_rate r2 p2 t) =
                         Some (committed (reg t) (if r2 =? 22579200 then 79 else 86))).
  { intros t. destruct Hr2 as [-> | ->].
    - now rewrite set_rate_eq_22579200.
    - now rewrite set_rate_eq_24576000. }
  destruct (Z.eq_dec r1 22579200) as [-> | H1];
    [| destruct (Z.eq_dec r1 24576000) as [-> | H2]].
  - rewrite set_rate_eq_22579200, !E2. cbn [reg].
    now rewrite committed_twice by (now left).
  - rewrite set_rate_eq_24576000, !E2. cbn [reg].
    now rewrite committed_twice by (now right).
  - rewrite set_rate_eq_other by assumption. rewrite !E2. reflexivity.
Qed.

Lemma set_rate_last_write_wins_witness :
  reg_after ((sun4i_pll2_set_rate 22579200 0 ;;; sun4i_pll2_set_rate 24576000 0)
               (fresh 0x800000E0)) =
  reg_after (sun4i_pll2_set_rate 24576000 0 (fresh 0x800000E0)).
Proof.
  apply (set_rate_last_write_wins 22579200 24576000 0 0 (fresh 0x800000E0)).
  right. reflexivity.
Defined.

(** ** Committing, then reading the rate back *)

(** X5: after a successful [set_rate], whatever the register held before,
    View 1x recalculates [((p * n) mod 2^BITS_PER_LONG) / 21 / 4] and View 8x
    recalculates [(((p * 2) mod 2^BITS_PER_LONG * n) mod 2^BITS_PER_LONG) / 21]
    for a parent rate [p], where [n] is 79 for 22,579,200 and 86 for
    24,576,000. *)
Theorem set_rate_then_recalc (a : arch) (rate parent_rate p : Z) (s s1 : iomem) :
  sun4i_pll2_set_rate rate parent_rate s = Some (0, s1) ->
  exists n,
    (rate = 22579200 /\ n = 79 \/ rate = 24576000 /\ n = 86) /\
    result (sun4i_pll2_1x_recalc_rate a p s1) =
      Some ((p * n) mod 2 ^ BITS_PER_LONG a / 21 / 4) /\
    result (sun4i_pll2_8x_recalc_rate a p s1) =
      Some (((p * 2) mod 2 ^ BITS_PER_LONG a * n) mod 2 ^ BITS_PER_LONG a / 21).
Proof.
  intros Hrun.
  destruct (set_rate_success _ _ _ _ Hrun) as (n & Hn & ->).
  exists n. split; [exact Hn|].
  assert (Hn' : n = 79 \/ n = 86) by (destruct Hn as [(_ & ->) | (_ & ->)]; auto).
  rewrite recalc_1x_eq, recalc_8x_eq. cbn [result option_map fst reg].
  rewrite committed_N, committed_P, committed_S by assumption.
  unfold mul_ulong, cast_ulong.
  pose proof (Z.mod_pos_bound (p * n) _ (modulus_pos a)) as B1.
  pose proof (Z.mod_pos_bound ((p * 2) mod 2 ^ BITS_PER_LONG a * n) _ (modulus_pos a)) as B8.
  rewrite (quot_div_nonneg _ 21) by lia.
  rewrite (quot_div_nonneg _ 21) by lia.
  rewrite quot_div_nonneg; [| apply Z.div_pos; lia | lia].
  split; reflexivity.
Qed.

Lemma set_rate_then_recalc_witness :
  exists n,
    result (sun4i_pll2_1x_recalc_rate ILP32 24000000
              (mk_iomem 0x90004FF5 [Readl 0x800000E0; Writel 0x90004FF5])) =
      Some ((24000000 * n) mod 2 ^ 32 / 21 / 4).
Proof.
  destruct (set_rate_then_recalc ILP32 22579200 0 24000000 (fresh 0x800000E0)
              (mk_iomem 0x90004FF5 [Readl 0x800000E0; Writel 0x90004FF5]))
    as (n & _ & H1 & _).
  - reflexivity.
  - exists n. exact H1.
Defined.

(** X6: reading back exactly what was committed needs one particular parent
    rate: for a parent rate [p] with [p * 86] in range, View 1x recalculates
    the rate just accepted by [set_rate] if and only if the rate is
    22,579,200 and [p] = 24,008,264 or the rate is 24,576,000 and
    [p] = 24,004,466; with any other parent rate the rate read back differs
    from the one set. *)
Theorem set_rate_recalc_exact_parent (a : arch) (rate parent_rate p : Z)
        (s s1 : iomem) :
  sun4i_pll2_set_rate rate parent_rate s = Some (0, s1) ->
  0 <= p -> p * 86 < 2 ^ BITS_PER_LONG a ->
  (result (sun4i_pll2_1x_recalc_rate a p s1) = Some rate <->
   (rate = 22579200 /\ p = 24008264) \/ (rate = 24576000 /\ p = 24004466)).
Proof.
  intros Hrun Hp Hfit.
  destruct (set_rate_success _ _ _ _ Hrun) as (n & Hn & ->).
  assert (Hn' : n = 79 \/ n = 86) by (destruct Hn as [(_ & ->) | (_ & ->)]; auto).
  rewrite recalc_1x_eq. cbn [result option_map fst reg].
  rewrite committed_N, committed_P, committed_S by assumption.
  rewrite mul_ulong_exact by lia.
  rewrite (quot_div_nonneg _ 21) by lia.
  rewrite quot_div_nonneg; [| apply Z.div_pos; lia | lia].
  rewrite Z.div_div by lia. change (21 * 4) with 84.
  pose proof (Z.div_mod (p * n) 84 ltac:(lia)) as Hdm.
  pose proof (Z.mod_pos_bound (p * n) 84 ltac:(lia)) as Hmb.
  split.
  - intros H. injection H as H.
    destruct Hn as [(-> & ->) | (-> & ->)]; [left | right]; split; lia.
  - intros [(-> & ->) | (-> & ->)];
      destruct Hn as [(Hr & ->) | (Hr & ->)]; try discriminate Hr; reflexivity.
Qed.

Lemma set_rate_recalc_exact_parent_witness :
  result (sun4i_pll2_1x_recalc_rate ILP32 24004466
            (mk_iomem 0x10005615 [Readl 0; Writel 0x10005615])) = Some 24576000.
Proof.
  apply (set_rate_recalc_exact_parent ILP32 24576000 0 24004466 (fresh 0)
           (mk_iomem 0x10005615 [Readl 0; Writel 0x10005615])).
  - reflexivity.
  - lia.
  - cbn; lia.
  - right. split; reflexivity.
Defined.

(** ** How the views relate *)

(** X7: View 8x is the double of View 1x without the post-divider: when
    [p * 2 * N] fits in an [unsigned long], the View 1x rate at parent rate
    [p] is the View 8x rate at [p], halved and then divided by the effective
    post-divider S (truncating). *)
Theorem recalc_1x_from_8x (a : arch) (p : Z) (s : iomem) :
  0 <= p ->
  p * 2 * Spec.N (reg s) < 2 ^ BITS_PER_LONG a ->
  exists r8,
    result (sun4i_pll2_8x_recalc_rate a p s) = Some r8 /\
    result (sun4i_pll2_1x_recalc_rate a p s) = Some (r8 / 2 / Spec.S (reg s)).
Proof.
  intros Hp Hfit.
  pose proof (N_range (reg s)) as HN. pose proof (P_range (reg s)) as HP.
  pose proof (S_range (reg s)) as HS.
  rewrite recalc_8x_eq, recalc_1x_eq. cbn [result option_map fst].
  set (n := Spec.N (reg s)) in *. set (d := Spec.P (reg s)) in *.
  set (q := Spec.S (reg s)) in *.
  rewrite (mul_ulong_exact a p 2) by nia.
  rewrite !mul_ulong_exact by nia.
  rewrite !(quot_div_nonneg _ d) by nia.
  rewrite quot_div_nonneg; [| apply Z.div_pos; nia | lia].
  eexists. split; [reflexivity|].
  do 2 f_equal.
  rewrite Z.div_div by lia.
  replace (p * 2 * n) with (p * n * 2) by ring.
  now rewrite Z.div_mul_cancel_r by lia.
Qed.

Lemma recalc_1x_from_8x_witness :
  exists r8,
    result (sun4i_pll2_8x_recalc_rate ILP32 24000000 (fresh 0x10005615)) = Some r8 /\
    result (sun4i_pll2_1x_recalc_rate ILP32 24000000 (fresh 0x10005615)) =
      Some (r8 / 2 / Spec.S (reg (fresh 0x10005615))).
Proof.
  apply (recalc_1x_from_8x ILP32 24000000 (fresh 0x10005615)).
  - lia.
  - reflexivity.
Defined.

(** X8: the rates depend on the three rate fields only: two register values
    that agree on bits 0-4, 8-14 and 26-29 give the same result in every
    view's [recalc_rate], so the enable bit and the reserved bits never
    change a reported rate. *)
Theorem recalc_rate_reads_rate_fields_only (a : arch) (v : view) (p : Z)
        (s s' : iomem) :
  (forall i, Spec.in_rate_field i = true ->
             Z.testbit (reg s) i = Z.testbit (reg s') i) ->
  result (recalc_rate (ops_of a v) p s) = result (recalc_rate (ops_of a v) p s').
Proof.
  intros Hbits.
  assert (HN : Spec.N (reg s) = Spec.N (reg s')).
  { unfold Spec.N. f_equal. apply field_agree; try lia.
    intros j Hj. apply Hbits, in_rate_field_true. lia. }
  assert (HP : Spec.P (reg s) = Spec.P (reg s')).
  { unfold Spec.P. f_equal. apply field_agree; try lia.
    intros j Hj. apply Hbits, in_rate_field_true. lia. }
  assert (HS : Spec.S (reg s) = Spec.S (reg s')).
  { unfold Spec.S. f_equal. apply field_agree; try lia.
    intros j Hj. apply Hbits, in_rate_field_true. lia. }
  destruct v; cbn [ops_of recalc_rate sun4i_pll2_ops_1x sun4i_pll2_ops_2x
                     sun4i_pll2_ops_4x sun4i_pll2_ops_8x];
    rewrite ?recalc_4x_eq, ?recalc_2x_eq, ?recalc_8x_eq, ?recalc_1x_eq;
    cbn [result option_map fst]; now rewrite ?HN, ?HP, ?HS.
Qed.

Lemma recalc_rate_reads_rate_fields_only_witness :
  result (recalc_rate (ops_of ILP32 View1x) 24000000 (fresh 0x10005615)) =
  result (recalc_rate (ops_of ILP32 View1x) 24000000 (fresh 0x900056F5)).
Proof.
  apply (recalc_rate_reads_rate_fields_only ILP32 View1x 24000000
           (fresh 0x10005615) (fresh 0x900056F5)).
  intros i Hi. apply in_rate_field_true in Hi.
  assert (Hr : 0 <= i < 32) by lia.
  apply small_index_cases in Hr. cbn [In] in Hr.
  repeat (destruct Hr as [<- | Hr]; [first [reflexivity | exfalso; lia] |]).
  contradiction.
Defined.

(** ** Ranges *)

(** X9: every view's [recalc_rate] returns a value that fits an
    [unsigned long], whatever the register holds and whatever the parent
    rate. *)
Theorem recalc_rate_in_range (a : arch) (v : view) (p : Z) (s : iomem) :
  exists r, result (recalc_rate (ops_of a v) p s) = Some r /\ is_ulong a r.
Proof.
  pose proof (P_range (reg s)) as HP. pose proof (S_range (reg s)) as HS.
  assert (Hq : forall x d, is_ulong a x -> 1 <= d -> is_ulong a (Z.quot x d)).
  { intros x d [Hx0 Hx1] Hd. rewrite quot_div_nonneg by lia. split.
    - apply Z.div_pos; lia.
    - eapply Z.le_lt_trans; [| exact Hx1].
      apply Z.div_le_upper_bound; [lia | nia]. }
  destruct v; cbn [ops_of recalc_rate sun4i_pll2_ops_1x sun4i_pll2_ops_2x
                     sun4i_pll2_ops_4x sun4i_pll2_ops_8x];
    rewrite ?recalc_4x_eq, ?recalc_2x_eq, ?recalc_8x_eq, ?recalc_1x_eq;
    cbn [result option_map fst]; eexists; (split; [reflexivity|]);
    repeat (apply Hq; [| lia]); apply mul_ulong_range.
Qed.

(** X10: for a parent rate [p] with [p * 127] in range, the View 1x rate lies
    between [p / 465] and [p * 127]: the multiplier is at most 127 and the
    two dividers are at most 31 and 15. *)
Theorem recalc_1x_bounds (a : arch) (p : Z) (s : iomem) :
  0 <= p -> p * 127 < 2 ^ BITS_PER_LONG a ->
  exists r,
    result (sun4i_pll2_1x_recalc_rate a p s) = Some r /\
    p / 465 <= r <= p * 127.
Proof.
  intros Hp Hfit.
  pose proof (N_range (reg s)) as HN. pose proof (P_range (reg s)) as HP.
  pose proof (S_range (reg s)) as HS.
  rewrite recalc_1x_eq. cbn [result option_map fst].
  set (n := Spec.N (reg s)) in *. set (d := Spec.P (reg s)) in *.
  set (q := Spec.S (reg s)) in *.
  rewrite mul_ulong_exact by nia.
  rewrite (quot_div_nonneg _ d) by nia.
  rewrite quot_div_nonneg; [| apply Z.div_pos; nia | lia].
  eexists. split; [reflexivity|].
  rewrite Z.div_div by lia.
  split.
  - apply Z.div_le_lower_bound; [nia|].
    transitivity (465 * (p / 465)).
    + apply Z.mul_le_mono_nonneg_r; [apply Z.div_pos; lia | nia].
    + pose proof (Z.mul_div_le p 465 ltac:(lia)). nia.
  - assert (Hdq : 1 <= d * q) by nia.
    assert (Hpn : p * n <= p * 127) by nia.
    assert (Hp127 : 0 <= p * 127) by lia.
    apply Z.div_le_upper_bound; [lia|].
    transitivity (1 * (p * 127)); [lia|].
    apply Z.mul_le_mono_nonneg_r; assumption.
Qed.

Lemma recalc_1x_bounds_witness :
  exists r,
    result (sun4i_pll2_1x_recalc_rate ILP32 24000000 (fresh 0xBC007F1F)) = Some r /\
    24000000 / 465 <= r <= 24000000 * 127.
Proof.
  apply (recalc_1x_bounds ILP32 24000000 (fresh 0xBC007F1F)).
  - lia.
  - reflexivity.
Defined.
